(** * 3DWindow: head-coupled off-axis projection

    A shallow embedding of the projection core of the "window into box"
    script: the detection callback [onFaceResults], the per-frame smoothing in
    [animate] and the asymmetric frustum of [updateOffAxisProjection].

    Numbers.  The script computes with JavaScript numbers.  They are embedded
    as exact rationals ([Q]), so every statement below is about the formulas
    of the script in exact arithmetic; equalities between computed values are
    [Qeq] ([==]), the equality of fractions.  Rounding is outside the model.

    State.  The script keeps its state in module-level [let] variables; the
    record [State] holds the ones the projection core reads or writes, and
    every function of the script becomes a function on [State]. *)

From Stdlib Require Import ZArith QArith Qabs Qminmax Lqa Lia List.
Import ListNotations.

Open Scope Q_scope.

(** ** Data *)

(** [detection.boundingBox] as MediaPipe delivers it (normalised to the frame). *)
Record BoundingBox : Set := {
  xCenter : Q;
  yCenter : Q;
  width : Q;
  height : Q
}.

Record Detection : Set := { boundingBox : BoundingBox }.

(** The argument of the result callback. *)
Record Results : Set := { detections : list Detection }.

(** [boxGroup.userData], written by [createBox]. *)
Record UserData : Set := {
  halfWidth : Q;
  halfHeight : Q
}.

Record Vector3 : Set := { vx : Q; vy : Q; vz : Q }.

(** A camera's projection matrix is only ever built by one of two calls of the
    rendering library; the embedding records the call and its arguments. *)
Inductive ProjectionMatrix : Set :=
| PerspectiveCamera (fov aspect near far : Q)
| makePerspective (left right bottom top near far : Q).

Record Camera : Set := {
  projectionMatrix : ProjectionMatrix;
  position : Vector3;
  rotation : Vector3
}.

(** The module-level variables of the script. [None] is JavaScript's
    [undefined] of a [let] that was never assigned. *)
Record State : Set := {
  targetX : Q;
  targetY : Q;
  currentX : Q;
  currentY : Q;
  smoothingAmount : Q;
  parallaxStrength : Q;
  boxGroup : option UserData;
  threeCamera : option Camera
}.

(** ** Constants *)

Definition nearClip : Q := 0.1.
Definition farClip : Q := 1000.

(** [const eyeDistance = 5], local to [updateOffAxisProjection]. *)
Definition eyeDistance : Q := 5.

(** ** The script *)

(** The variables as their declarations initialise them. The two versions of
    the script differ in the default strength only (0.40 and 0.20). *)
Definition initialState (strength : Q) : State :=
  {| targetX := 0; targetY := 0;
     currentX := 0; currentY := 0;
     smoothingAmount := 0.15;
     parallaxStrength := strength;
     boxGroup := None;
     threeCamera := None |}.

Definition gridScript : State := initialState 0.40.
Definition modelScript : State := initialState 0.20.

(** [createBox]: the part that fixes the extent of the screen plane. *)
Definition createBox (s : State) : State :=
  let aspect := 1920 / 1080 in
  let BASE_SIZE := 4 in
  let halfWidth := BASE_SIZE * aspect / 2 in
  let halfHeight := BASE_SIZE / 2 in
  {| targetX := targetX s; targetY := targetY s;
     currentX := currentX s; currentY := currentY s;
     smoothingAmount := smoothingAmount s;
     parallaxStrength := parallaxStrength s;
     boxGroup := Some {| halfWidth := halfWidth; halfHeight := halfHeight |};
     threeCamera := threeCamera s |}.

(** [initThreeJS]: the camera is created at the origin, then the box.
    [windowAspect] is [window.innerWidth / window.innerHeight]. *)
Definition initThreeJS (windowAspect : Q) (s : State) : State :=
  createBox
    {| targetX := targetX s; targetY := targetY s;
       currentX := currentX s; currentY := currentY s;
       smoothingAmount := smoothingAmount s;
       parallaxStrength := parallaxStrength s;
       boxGroup := boxGroup s;
       threeCamera :=
         Some {| projectionMatrix :=
                   PerspectiveCamera 50 windowAspect nearClip farClip;
                 position := {| vx := 0; vy := 0; vz := 0 |};
                 rotation := {| vx := 0; vy := 0; vz := 0 |} |} |}.

(** [onFaceResults]: only the first detection is read; with none the
    variables are left alone. Drawing on the overlay canvas is not modelled. *)
Definition onFaceResults (results : Results) (s : State) : State :=
  match detections results with
  | detection :: _ =>
      let bbox := boundingBox detection in
      {| targetX := (xCenter bbox - 0.5) * 2;
         targetY := (yCenter bbox - 0.5) * 2;
         currentX := currentX s; currentY := currentY s;
         smoothingAmount := smoothingAmount s;
         parallaxStrength := parallaxStrength s;
         boxGroup := boxGroup s;
         threeCamera := threeCamera s |}
  | [] => s
  end.

(** [updateOffAxisProjection], line by line. It returns at once while the
    camera or the box is missing. The second version of the script writes
    the screen corners inline and is otherwise the same. The inverse matrix
    and the world matrix are derived from what is set here and are not kept. *)
Definition updateOffAxisProjection (s : State) : State :=
  match threeCamera s, boxGroup s with
  | Some _, Some userData =>
      let halfWidth := halfWidth userData in
      let halfHeight := halfHeight userData in
      let eyeX := (- currentX s) * halfWidth * parallaxStrength s in
      let eyeY := currentY s * halfHeight * parallaxStrength s in
      let screenLeft := - halfWidth in
      let screenRight := halfWidth in
      let screenBottom := - halfHeight in
      let screenTop := halfHeight in
      let nearOverDist := nearClip / eyeDistance in
      let left := (screenLeft - eyeX) * nearOverDist in
      let right := (screenRight - eyeX) * nearOverDist in
      let bottom := (screenBottom - eyeY) * nearOverDist in
      let top := (screenTop - eyeY) * nearOverDist in
      {| targetX := targetX s; targetY := targetY s;
         currentX := currentX s; currentY := currentY s;
         smoothingAmount := smoothingAmount s;
         parallaxStrength := parallaxStrength s;
         boxGroup := boxGroup s;
         threeCamera :=
           Some {| projectionMatrix :=
                     makePerspective left right bottom top nearClip farClip;
                   position := {| vx := eyeX; vy := eyeY; vz := eyeDistance |};
                   rotation := {| vx := 0; vy := 0; vz := 0 |} |} |}
  | _, _ => s
  end.

(** [animate]: one frame. The smoothing step, then the projection. The
    decoration of the scene, the draw call and the frame counter do not touch
    the variables of [State]. *)
Definition animate (s : State) : State :=
  updateOffAxisProjection
    {| targetX := targetX s; targetY := targetY s;
       currentX := currentX s + (targetX s - currentX s) * smoothingAmount s;
       currentY := currentY s + (targetY s - currentY s) * smoothingAmount s;
       smoothingAmount := smoothingAmount s;
       parallaxStrength := parallaxStrength s;
       boxGroup := boxGroup s;
       threeCamera := threeCamera s |}.

(** The clamp of [setupFloatControl]:
    [Math.max(min, Math.min(max, newVal))]. *)
Definition clampControl (min max newVal : Q) : Q :=
  Qmax min (Qmin max newVal).

(** The setter of the strength control, after the clamp to 0.1 - 2.0. *)
Definition setStrength (newVal : Q) (s : State) : State :=
  {| targetX := targetX s; targetY := targetY s;
     currentX := currentX s; currentY := currentY s;
     smoothingAmount := smoothingAmount s;
     parallaxStrength := clampControl 0.1 2.0 newVal;
     boxGroup := boxGroup s;
     threeCamera := threeCamera s |}.

(** The setter of the smoothing control, after the clamp to 0.01 - 0.50. *)
Definition setSmoothing (newVal : Q) (s : State) : State :=
  {| targetX := targetX s; targetY := targetY s;
     currentX := currentX s; currentY := currentY s;
     smoothingAmount := clampControl 0.01 0.50 newVal;
     parallaxStrength := parallaxStrength s;
     boxGroup := boxGroup s;
     threeCamera := threeCamera s |}.

(** [n] frames in a row. *)
Fixpoint frames (n : nat) (s : State) : State :=
  match n with
  | O => s
  | S n' => frames n' (animate s)
  end.

(** The callbacks that the host environment fires, in any order: a detection
    result, an animation frame, a click on one of the two controls
    ([newVal] is the displayed value plus or minus the step). *)
Inductive Event : Set :=
| FaceResults (results : Results)
| AnimationFrame
| StrengthClick (newVal : Q)
| SmoothingClick (newVal : Q).

Definition handle (e : Event) (s : State) : State :=
  match e with
  | FaceResults results => onFaceResults results s
  | AnimationFrame => animate s
  | StrengthClick newVal => setStrength newVal s
  | SmoothingClick newVal => setSmoothing newVal s
  end.

Definition run (events : list Event) (s : State) : State :=
  fold_left (fun st e => handle e st) events s.

(** ** Observations *)

Definition projectionOf (s : State) : option ProjectionMatrix :=
  option_map projectionMatrix (threeCamera s).

Definition withCurrent (x y : Q) (s : State) : State :=
  {| targetX := targetX s; targetY := targetY s;
     currentX := x; currentY := y;
     smoothingAmount := smoothingAmount s;
     parallaxStrength := parallaxStrength s;
     boxGroup := boxGroup s;
     threeCamera := threeCamera s |}.

(** The state of the worked example of the specification: a screen plane of
    2.0 by 1.125 half-extents, strength 0.4, the camera as [initThreeJS]
    leaves it, and the smoothed position at [(x, y)]. *)
Definition scenario (x y : Q) : State :=
  {| targetX := x; targetY := y;
     currentX := x; currentY := y;
     smoothingAmount := 0.15;
     parallaxStrength := 0.4;
     boxGroup := Some {| halfWidth := 2.0; halfHeight := 1.125 |};
     threeCamera := threeCamera (initThreeJS (16 # 9) gridScript) |}.

(** The sequence [c, c + (t - c) f, ...] that one coordinate runs through
    when the target [t] and the factor [f] stay put. *)
Fixpoint smoothed (n : nat) (c t f : Q) : Q :=
  match n with
  | O => c
  | S n' => smoothed n' (c + (t - c) * f) t f
  end.

(** One of the two coordinates; the script treats them alike. *)
Inductive Axis : Set := X | Y.

Definition current (a : Axis) (s : State) : Q :=
  match a with X => currentX s | Y => currentY s end.

Definition target (a : Axis) (s : State) : Q :=
  match a with X => targetX s | Y => targetY s end.

(** The same sequence with every value put in lowest terms, for evaluation. *)
Fixpoint smoothedReduced (n : nat) (c t f : Q) : Q :=
  match n with
  | O => c
  | S n' => smoothedReduced n' (Qred (c + (t - c) * f)) t f
  end.

(** A callback that reports no face. *)
Definition noFace (e : Event) : bool :=
  match e with
  | FaceResults results =>
      match detections results with [] => true | _ :: _ => false end
  | AnimationFrame | StrengthClick _ | SmoothingClick _ => true
  end.

(** A callback whose first detection, if any, is centred inside the frame. *)
Definition inFrame (e : Event) : Prop :=
  match e with
  | FaceResults results =>
      match detections results with
      | [] => True
      | detection :: _ =>
          0 <= xCenter (boundingBox detection) <= 1 /\
          0 <= yCenter (boundingBox detection) <= 1
      end
  | AnimationFrame | StrengthClick _ | SmoothingClick _ => True
  end.

(** Target and smoothed position inside [[-1,1]] on both axes. *)
Definition inRange (s : State) : Prop :=
  (-1 <= targetX s <= 1 /\ -1 <= targetY s <= 1) /\
  (-1 <= currentX s <= 1 /\ -1 <= currentY s <= 1).

(** The ranges that the two controls keep the settings in. *)
Definition settingsInRange (s : State) : Prop :=
  0.01 <= smoothingAmount s <= 0.50 /\ 0.1 <= parallaxStrength s <= 2.0.

(** What [initThreeJS] sets up and nothing afterwards takes away. *)
Definition ready (s : State) : Prop :=
  threeCamera s <> None /\
  boxGroup s =
    Some {| halfWidth := 4 * (1920 / 1080) / 2; halfHeight := 4 / 2 |}.

(** ** Sample states *)

(** A state the running script reaches: initialised, one face seen to the
    right of the centre, three frames drawn. *)
Definition trackedState : State :=
  frames 3
    (onFaceResults
       {| detections :=
            [ {| boundingBox := {| xCenter := 0.75; yCenter := 0.4;
                                   width := 0.2; height := 0.3 |} |} ] |}
       (initThreeJS (16 # 9) gridScript)).

(** The face sits at the right edge of the frame: the target is 1 on x. *)
Definition edgeFace : Detection :=
  {| boundingBox := {| xCenter := 1; yCenter := 0.5;
                       width := 0.2; height := 0.3 |} |}.

Definition faceAtEdge : State :=
  onFaceResults {| detections := [ edgeFace ] |}
                (initThreeJS (16 # 9) gridScript).

(** A short session: a face left of the centre, frames, clicks on both
    controls (one far beyond its range), a frame without a face. *)
Definition sampleSession : list Event :=
  [ AnimationFrame;
    FaceResults
      {| detections :=
           [ {| boundingBox := {| xCenter := 0.2; yCenter := 0.9;
                                  width := 0.3; height := 0.4 |} |} ] |};
    AnimationFrame;
    StrengthClick 2.05;
    SmoothingClick 0.00;
    FaceResults {| detections := [] |};
    AnimationFrame ].

(** ** Proof automation *)

(** Closed comparisons of rationals, by evaluation. *)
Ltac qeval :=
  vm_compute; repeat split; first [ reflexivity | discriminate ].

(** ** Basic facts *)

Section Ready.
Variable s : State.
Variable cam : Camera.
Variable ud : UserData.
Hypothesis Hcam : threeCamera s = Some cam.
Hypothesis Hbox : boxGroup s = Some ud.

Let eyeX := (- currentX s) * halfWidth ud * parallaxStrength s.
Let eyeY := currentY s * halfHeight ud * parallaxStrength s.
Let k := nearClip / eyeDistance.

Lemma updateOffAxisProjection_camera :
  threeCamera (updateOffAxisProjection s) =
  Some {| projectionMatrix :=
            makePerspective ((- halfWidth ud - eyeX) * k)
                            ((halfWidth ud - eyeX) * k)
                            ((- halfHeight ud - eyeY) * k)
                            ((halfHeight ud - eyeY) * k)
                            nearClip farClip;
          position := {| vx := eyeX; vy := eyeY; vz := eyeDistance |};
          rotation := {| vx := 0; vy := 0; vz := 0 |} |}.
Proof.
  unfold updateOffAxisProjection. rewrite Hcam, Hbox. reflexivity.
Qed.

Lemma updateOffAxisProjection_projection :
  projectionOf (updateOffAxisProjection s) =
  Some (makePerspective ((- halfWidth ud - eyeX) * k)
                        ((halfWidth ud - eyeX) * k)
                        ((- halfHeight ud - eyeY) * k)
                        ((halfHeight ud - eyeY) * k)
                        nearClip farClip).
Proof.
  unfold projectionOf. rewrite updateOffAxisProjection_camera. reflexivity.
Qed.
End Ready.

(** [updateOffAxisProjection] writes to the camera only. *)
Lemma updateOffAxisProjection_vars (s : State) :
  let s' := updateOffAxisProjection s in
  targetX s' = targetX s /\ targetY s' = targetY s /\
  currentX s' = currentX s /\ currentY s' = currentY s /\
  smoothingAmount s' = smoothingAmount s /\
  parallaxStrength s' = parallaxStrength s /\
  boxGroup s' = boxGroup s.
Proof.
  cbv zeta. unfold updateOffAxisProjection.
  destruct (threeCamera s) eqn:Hc; [destruct (boxGroup s) eqn:Hb|]; cbn;
    rewrite ?Hb; repeat split; reflexivity.
Qed.

Lemma updateOffAxisProjection_camera_kept (s : State) :
  threeCamera s = None <-> threeCamera (updateOffAxisProjection s) = None.
Proof.
  unfold updateOffAxisProjection.
  destruct (threeCamera s) as [c|] eqn:Hc.
  - destruct (boxGroup s); cbn; rewrite ?Hc; split; congruence.
  - rewrite Hc. split; reflexivity.
Qed.

Lemma animate_vars (s : State) :
  targetX (animate s) = targetX s /\ targetY (animate s) = targetY s /\
  currentX (animate s) = currentX s + (targetX s - currentX s) * smoothingAmount s /\
  currentY (animate s) = currentY s + (targetY s - currentY s) * smoothingAmount s /\
  smoothingAmount (animate s) = smoothingAmount s /\
  parallaxStrength (animate s) = parallaxStrength s /\
  boxGroup (animate s) = boxGroup s.
Proof.
  unfold animate.
  match goal with |- context [updateOffAxisProjection ?t] =>
    pose proof (updateOffAxisProjection_vars t) as H end.
  cbn in H. exact H.
Qed.

Lemma frames_vars (n : nat) : forall s : State,
  targetX (frames n s) = targetX s /\ targetY (frames n s) = targetY s /\
  currentX (frames n s) = smoothed n (currentX s) (targetX s) (smoothingAmount s) /\
  currentY (frames n s) = smoothed n (currentY s) (targetY s) (smoothingAmount s) /\
  smoothingAmount (frames n s) = smoothingAmount s.
Proof.
  induction n as [|n IH]; intro s; cbn [frames smoothed].
  - repeat split; reflexivity.
  - destruct (animate_vars s) as (Htx & Hty & Hcx & Hcy & Hf & _).
    destruct (IH (animate s)) as (Itx & Ity & Icx & Icy & If).
    rewrite Itx, Ity, Icx, Icy, If, Htx, Hty, Hcx, Hcy, Hf.
    repeat split; reflexivity.
Qed.

(** ** The frustum *)

(** The similar-triangles factor of the script, [nearClip / eyeDistance]. *)
Lemma nearOverDist_value : nearClip / eyeDistance = 1 # 50.
Proof. reflexivity. Qed.

Lemma over_eyeDistance (a : Q) : a * nearClip / eyeDistance == a * (1 # 50).
Proof.
  unfold Qdiv. rewrite <- Qmult_assoc.
  change (nearClip * / eyeDistance) with (1 # 50). reflexivity.
Qed.

(** Puts the frustum goals in a shape that linear arithmetic can read: the
    scale factor becomes a literal and the eye offsets become atoms. *)
Ltac frustum_arith s ud :=
  rewrite ?nearOverDist_value, ?over_eyeDistance;
  generalize ((- currentX s) * halfWidth ud * parallaxStrength s);
  generalize (currentY s * halfHeight ud * parallaxStrength s);
  intros; lra.

(** C1. Whenever the camera and the box exist, the smoothed position lies in
    [[-1,1]] on both axes and the strength and both half-extents are
    positive, [updateOffAxisProjection] hands the camera a frustum with
    [left < right] and [bottom < top]. *)
Theorem frustum_nondegenerate (s : State) (cam : Camera) (ud : UserData) :
  threeCamera s = Some cam -> boxGroup s = Some ud ->
  -1 <= currentX s <= 1 -> -1 <= currentY s <= 1 ->
  0 < parallaxStrength s -> 0 < halfWidth ud -> 0 < halfHeight ud ->
  exists left right bottom top,
    projectionOf (updateOffAxisProjection s) =
      Some (makePerspective left right bottom top nearClip farClip) /\
    left < right /\ bottom < top.
Proof.
  intros Hcam Hbox _ _ _ Hw Hh.
  do 4 eexists. split.
  - apply (updateOffAxisProjection_projection s cam ud Hcam Hbox).
  - split; frustum_arith s ud.
Qed.

Lemma frustum_nondegenerate_witness :
  exists left right bottom top,
    projectionOf (updateOffAxisProjection trackedState) =
      Some (makePerspective left right bottom top nearClip farClip) /\
    left < right /\ bottom < top.
Proof.
  eapply frustum_nondegenerate; qeval.
Defined.

(** C10. The extent of the frustum does not depend on where the head is:
    [right - left] is [2 * halfWidth * nearClip / eyeDistance] and
    [top - bottom] is [2 * halfHeight * nearClip / eyeDistance], whatever the
    smoothed position and the strength. *)
Theorem frustum_extent_fixed (s : State) (cam : Camera) (ud : UserData) :
  threeCamera s = Some cam -> boxGroup s = Some ud ->
  exists left right bottom top,
    projectionOf (updateOffAxisProjection s) =
      Some (makePerspective left right bottom top nearClip farClip) /\
    right - left == 2 * halfWidth ud * nearClip / eyeDistance /\
    top - bottom == 2 * halfHeight ud * nearClip / eyeDistance.
Proof.
  intros Hcam Hbox.
  do 4 eexists. split.
  - apply (updateOffAxisProjection_projection s cam ud Hcam Hbox).
  - split; frustum_arith s ud.
Qed.

Lemma frustum_extent_fixed_witness :
  exists left right bottom top,
    projectionOf (updateOffAxisProjection trackedState) =
      Some (makePerspective left right bottom top nearClip farClip) /\
    right - left == 2 * (7680 # 2160) * nearClip / eyeDistance /\
    top - bottom == 2 * (4 # 2) * nearClip / eyeDistance.
Proof.
  refine (frustum_extent_fixed trackedState _
            {| halfWidth := 7680 # 2160; halfHeight := 4 # 2 |} _ _); qeval.
Defined.

(** C3. With the smoothed position at the centre the frustum is the symmetric
    one of the screen plane: [left = -right], [bottom = -top], and the four
    bounds are [-+ halfWidth * nearClip / eyeDistance] and
    [-+ halfHeight * nearClip / eyeDistance], for every strength and every
    extent. *)
Theorem centred_frustum_symmetric (s : State) (cam : Camera) (ud : UserData) :
  threeCamera s = Some cam -> boxGroup s = Some ud ->
  currentX s == 0 -> currentY s == 0 ->
  exists left right bottom top,
    projectionOf (updateOffAxisProjection s) =
      Some (makePerspective left right bottom top nearClip farClip) /\
    left == - right /\ bottom == - top /\
    left == - halfWidth ud * nearClip / eyeDistance /\
    right == halfWidth ud * nearClip / eyeDistance /\
    bottom == - halfHeight ud * nearClip / eyeDistance /\
    top == halfHeight ud * nearClip / eyeDistance.
Proof.
  intros Hcam Hbox Hx Hy.
  do 4 eexists. split.
  - apply (updateOffAxisProjection_projection s cam ud Hcam Hbox).
  - rewrite nearOverDist_value, !over_eyeDistance, Hx, Hy.
    repeat split; ring.
Qed.

Lemma centred_frustum_symmetric_witness :
  exists left right bottom top,
    projectionOf (updateOffAxisProjection (initThreeJS (16 # 9) modelScript)) =
      Some (makePerspective left right bottom top nearClip farClip) /\
    left == - right /\ bottom == - top /\
    left == - (7680 # 2160) * nearClip / eyeDistance /\
    right == (7680 # 2160) * nearClip / eyeDistance /\
    bottom == - (4 # 2) * nearClip / eyeDistance /\
    top == (4 # 2) * nearClip / eyeDistance.
Proof.
  refine (centred_frustum_symmetric (initThreeJS (16 # 9) modelScript) _
            {| halfWidth := 7680 # 2160; halfHeight := 4 # 2 |} _ _ _ _); qeval.
Defined.

(** C4. The worked example: half-extents 2.0 and 1.125, strength 0.4, clip
    planes 0.1 and 1000, eye distance 5. At the centre the frustum is
    [-0.04, 0.04, -0.0225, 0.0225]; at [(1, 0)] the eye sits at [x = -0.8]
    and the frustum runs from [-0.024] to [0.056]. *)
Theorem worked_example :
  (exists left right bottom top eyeX eyeY,
     threeCamera (updateOffAxisProjection (scenario 0 0)) =
       Some {| projectionMatrix := makePerspective left right bottom top 0.1 1000;
               position := {| vx := eyeX; vy := eyeY; vz := 5 |};
               rotation := {| vx := 0; vy := 0; vz := 0 |} |} /\
     eyeX == 0 /\ eyeY == 0 /\
     left == -0.04 /\ right == 0.04 /\ bottom == -0.0225 /\ top == 0.0225) /\
  (exists left right bottom top eyeX eyeY,
     threeCamera (updateOffAxisProjection (scenario 1 0)) =
       Some {| projectionMatrix := makePerspective left right bottom top 0.1 1000;
               position := {| vx := eyeX; vy := eyeY; vz := 5 |};
               rotation := {| vx := 0; vy := 0; vz := 0 |} |} /\
     eyeX == -0.8 /\ left == -0.024 /\ right == 0.056).
Proof.
  split; do 6 eexists; (split; [ reflexivity | qeval ]).
Qed.

(** C7. The eye is displaced by [-currentX * halfWidth * parallaxStrength]
    along x (the sign undoes the mirrored feed) and by
    [currentY * halfHeight * parallaxStrength] along y; the camera is put
    there at distance [eyeDistance], with all three rotation angles zero. *)
Theorem eye_placement (s : State) (cam : Camera) (ud : UserData) :
  threeCamera s = Some cam -> boxGroup s = Some ud ->
  exists matrix,
    threeCamera (updateOffAxisProjection s) =
      Some {| projectionMatrix := matrix;
              position :=
                {| vx := (- currentX s) * halfWidth ud * parallaxStrength s;
                   vy := currentY s * halfHeight ud * parallaxStrength s;
                   vz := eyeDistance |};
              rotation := {| vx := 0; vy := 0; vz := 0 |} |}.
Proof.
  intros Hcam Hbox. eexists.
  apply (updateOffAxisProjection_camera s cam ud Hcam Hbox).
Qed.

Lemma eye_placement_witness :
  exists matrix,
    threeCamera (updateOffAxisProjection trackedState) =
      Some {| projectionMatrix := matrix;
              position :=
                {| vx := (- currentX trackedState) * (7680 # 2160)
                         * parallaxStrength trackedState;
                   vy := currentY trackedState * (4 # 2)
                         * parallaxStrength trackedState;
                   vz := eyeDistance |};
              rotation := {| vx := 0; vy := 0; vz := 0 |} |}.
Proof.
  refine (eye_placement trackedState _
            {| halfWidth := 7680 # 2160; halfHeight := 4 # 2 |} _ _); qeval.
Defined.

(** C2, as stated, fails on the worked example: from [x = 0] to [x = 1] the right bound goes up,
    from 0.04 to 0.056, and the magnitude of the left bound goes down, from
    0.04 to 0.024. *)
Lemma mirrored_sign_counterexample :
  exists left0 right0 bottom0 top0 left1 right1 bottom1 top1,
    projectionOf (updateOffAxisProjection (scenario 0 0)) =
      Some (makePerspective left0 right0 bottom0 top0 nearClip farClip) /\
    projectionOf (updateOffAxisProjection (scenario 1 0)) =
      Some (makePerspective left1 right1 bottom1 top1 nearClip farClip) /\
    right0 == 0.04 /\ right1 == 0.056 /\
    Qabs left0 == 0.04 /\ Qabs left1 == 0.024 /\
    ~ right1 < right0 /\ ~ Qabs left0 < Qabs left1.
Proof.
  do 8 eexists. split; [ reflexivity | split; [ reflexivity | ] ].
  vm_compute. repeat split; first [ reflexivity | discriminate ].
Qed.

Lemma left_bound_shape (x hw p : Q) :
  (- hw - (- x) * hw * p) * (1 # 50) == - ((1 # 50) * hw * (1 - x * p)).
Proof. ring. Qed.

Lemma right_bound_shape (x hw p : Q) :
  (hw - (- x) * hw * p) * (1 # 50) == (1 # 50) * hw * (1 + x * p).
Proof. ring. Qed.

(** C2, as the script has it. With the extent, the strength and [currentY]
    fixed, moving [currentX] from 0 towards positive values moves both bounds
    up: [right] strictly increases and [left] strictly increases, so the
    magnitude of [left] strictly decreases for as long as
    [currentX * parallaxStrength <= 1]. *)
Theorem mirrored_sign (s : State) (cam : Camera) (ud : UserData) (y x1 x2 : Q) :
  threeCamera s = Some cam -> boxGroup s = Some ud ->
  0 < halfWidth ud -> 0 < halfHeight ud -> 0 < parallaxStrength s ->
  0 <= x1 -> x1 < x2 ->
  exists left1 right1 bottom1 top1 left2 right2 bottom2 top2,
    projectionOf (updateOffAxisProjection (withCurrent x1 y s)) =
      Some (makePerspective left1 right1 bottom1 top1 nearClip farClip) /\
    projectionOf (updateOffAxisProjection (withCurrent x2 y s)) =
      Some (makePerspective left2 right2 bottom2 top2 nearClip farClip) /\
    right1 < right2 /\ left1 < left2 /\
    (x2 * parallaxStrength s <= 1 -> Qabs left2 < Qabs left1).
Proof.
  intros Hcam Hbox Hw _ Hp Hx1 Hlt.
  do 8 eexists. split; [ | split ].
  - apply (updateOffAxisProjection_projection (withCurrent x1 y s) cam ud Hcam Hbox).
  - apply (updateOffAxisProjection_projection (withCurrent x2 y s) cam ud Hcam Hbox).
  - cbn [withCurrent currentX currentY parallaxStrength].
    rewrite nearOverDist_value, !left_bound_shape, !right_bound_shape.
    set (p := parallaxStrength s) in *. set (hw := halfWidth ud) in *.
    assert (Hhp : 0 < (1 # 50) * hw) by lra.
    assert (Hxp : x1 * p < x2 * p) by (apply Qmult_lt_compat_r; assumption).
    assert (Hr : (1 # 50) * hw * (1 + x1 * p) < (1 # 50) * hw * (1 + x2 * p))
      by (apply Qmult_lt_l; [ assumption | lra ]).
    assert (Hl : (1 # 50) * hw * (1 - x2 * p) < (1 # 50) * hw * (1 - x1 * p))
      by (apply Qmult_lt_l; [ assumption | lra ]).
    split; [ exact Hr | split; [ lra | ] ].
    intro Hle.
    assert (H2 : 0 <= (1 # 50) * hw * (1 - x2 * p))
      by (apply Qmult_le_0_compat; lra).
    rewrite !Qabs_opp, !Qabs_pos by lra.
    exact Hl.
Qed.

Lemma mirrored_sign_witness :
  exists left1 right1 bottom1 top1 left2 right2 bottom2 top2,
    projectionOf (updateOffAxisProjection (withCurrent 0.25 0 trackedState)) =
      Some (makePerspective left1 right1 bottom1 top1 nearClip farClip) /\
    projectionOf (updateOffAxisProjection (withCurrent 0.5 0 trackedState)) =
      Some (makePerspective left2 right2 bottom2 top2 nearClip farClip) /\
    right1 < right2 /\ left1 < left2 /\
    (0.5 * parallaxStrength trackedState <= 1 -> Qabs left2 < Qabs left1).
Proof.
  refine (mirrored_sign trackedState _
            {| halfWidth := 7680 # 2160; halfHeight := 4 # 2 |} 0 0.25 0.5
            _ _ _ _ _ _ _); qeval.
Defined.

(** ** Smoothing *)

Lemma frames_target (a : Axis) (n : nat) (s : State) :
  target a (frames n s) = target a s.
Proof.
  destruct (frames_vars n s) as (Htx & Hty & _). destruct a; assumption.
Qed.

Lemma frames_current (a : Axis) (n : nat) (s : State) :
  current a (frames n s) =
  smoothed n (current a s) (target a s) (smoothingAmount s).
Proof.
  destruct (frames_vars n s) as (_ & _ & Hcx & Hcy & _). destruct a; assumption.
Qed.

Section Step.
Variables t f : Q.
Hypothesis Hf : 0 < f <= 1.

(** The step is a convex combination of the old value and the target. *)
Lemma step_convex (c : Q) : c + (t - c) * f == (1 - f) * c + f * t.
Proof. ring. Qed.

Lemma step_between (lo hi c : Q) :
  lo <= c <= hi -> lo <= t <= hi -> lo <= c + (t - c) * f <= hi.
Proof.
  intros Hc Ht.
  assert (H1 : 0 <= (1 - f) * (c - lo)) by (apply Qmult_le_0_compat; lra).
  assert (H2 : 0 <= f * (t - lo)) by (apply Qmult_le_0_compat; lra).
  assert (H3 : 0 <= (1 - f) * (hi - c)) by (apply Qmult_le_0_compat; lra).
  assert (H4 : 0 <= f * (hi - t)) by (apply Qmult_le_0_compat; lra).
  split; lra.
Qed.

Lemma smoothed_between (lo hi : Q) (n : nat) : forall c : Q,
  lo <= c <= hi -> lo <= t <= hi -> lo <= smoothed n c t f <= hi.
Proof.
  induction n as [|n IH]; intros c Hc Ht; cbn [smoothed].
  - exact Hc.
  - apply IH; [ apply step_between | ]; assumption.
Qed.

Lemma smoothed_rises (n : nat) : forall c : Q,
  c <= t -> smoothed n c t f <= smoothed (S n) c t f <= t.
Proof.
  induction n as [|n IH]; intros c Hc.
  - cbn [smoothed].
    assert (H1 : 0 <= f * (t - c)) by (apply Qmult_le_0_compat; lra).
    assert (H2 : 0 <= (1 - f) * (t - c)) by (apply Qmult_le_0_compat; lra).
    split; lra.
  - change (smoothed n (c + (t - c) * f) t f
            <= smoothed (S n) (c + (t - c) * f) t f <= t).
    apply IH. apply (step_between c t c); lra.
Qed.

Lemma smoothed_falls (n : nat) : forall c : Q,
  t <= c -> t <= smoothed (S n) c t f <= smoothed n c t f.
Proof.
  induction n as [|n IH]; intros c Hc.
  - cbn [smoothed].
    assert (H1 : 0 <= f * (c - t)) by (apply Qmult_le_0_compat; lra).
    assert (H2 : 0 <= (1 - f) * (c - t)) by (apply Qmult_le_0_compat; lra).
    split; lra.
  - change (t <= smoothed (S n) (c + (t - c) * f) t f
            <= smoothed n (c + (t - c) * f) t f).
    apply IH. apply (step_between t c c); lra.
Qed.

(** Each step shrinks the distance to the target by the factor [1 - f]. *)
Lemma step_distance (c : Q) :
  Qabs (t - (c + (t - c) * f)) == (1 - f) * Qabs (t - c).
Proof.
  setoid_replace (t - (c + (t - c) * f)) with ((1 - f) * (t - c)) by ring.
  rewrite Qabs_Qmult, (Qabs_pos (1 - f)) by lra. reflexivity.
Qed.

Lemma smoothed_distance_step (n : nat) : forall c : Q,
  Qabs (t - smoothed (S n) c t f) <= Qabs (t - smoothed n c t f).
Proof.
  induction n as [|n IH]; intro c.
  - cbn [smoothed]. rewrite step_distance.
    pose proof (Qabs_nonneg (t - c)) as Hd.
    assert (H : 0 <= f * Qabs (t - c)) by (apply Qmult_le_0_compat; lra).
    lra.
  - apply (IH (c + (t - c) * f)).
Qed.

Lemma smoothed_distance_le (n : nat) : forall c : Q,
  Qabs (t - smoothed n c t f) <= Qabs (t - c).
Proof.
  induction n as [|n IH]; intro c.
  - apply Qle_refl.
  - eapply Qle_trans; [ apply smoothed_distance_step | apply IH ].
Qed.

(** A Bernoulli-style bound: after [n] steps the distance is at most the
    initial one divided by [1 + n f]. *)
Lemma smoothed_distance_bound (n : nat) : forall c : Q,
  Qabs (t - smoothed n c t f) * (1 + inject_Z (Z.of_nat n) * f)
  <= Qabs (t - c).
Proof.
  induction n as [|n IH]; intro c.
  - cbn [smoothed]. change (inject_Z (Z.of_nat 0)) with 0.
    setoid_replace (Qabs (t - c) * (1 + 0 * f)) with (Qabs (t - c)) by ring.
    apply Qle_refl.
  - cbn [smoothed].
    rewrite Nat2Z.inj_succ, <- Z.add_1_r, inject_Z_plus.
    change (inject_Z 1) with 1.
    set (c' := c + (t - c) * f).
    set (d := Qabs (t - smoothed n c' t f)).
    set (m := inject_Z (Z.of_nat n)).
    pose proof (IH c') as H1. fold d m in H1.
    pose proof (smoothed_distance_le n c') as H2. fold d in H2.
    unfold c' in H1, H2. rewrite step_distance in H1, H2.
    pose proof (Qabs_nonneg (t - c)) as HD.
    set (D := Qabs (t - c)) in *.
    assert (H3 : d * f <= (1 - f) * D * f)
      by (apply Qmult_le_compat_r; lra).
    assert (H4 : 0 <= f * D * f).
    { apply Qmult_le_0_compat; [ apply Qmult_le_0_compat | ]; lra. }
    setoid_replace (d * (1 + (m + 1) * f)) with (d * (1 + m * f) + d * f)
      by ring.
    lra.
Qed.

(** Hence the distance falls below every positive bound, for good. *)
Lemma smoothed_converges (c eps : Q) :
  0 < eps ->
  exists N : nat, forall n : nat, (N <= n)%nat ->
    Qabs (t - smoothed n c t f) < eps.
Proof.
  intro Heps.
  assert (Hef : 0 < eps * f) by (apply Qmult_lt_0_compat; lra).
  destruct (Qarchimedean (Qabs (t - c) / (eps * f))) as [p Hp].
  exists (Pos.to_nat p). intros n Hn.
  set (m := inject_Z (Z.of_nat n)).
  assert (Hm : Z.pos p # 1 <= m).
  { unfold m. change (Z.pos p # 1) with (inject_Z (Z.pos p)).
    rewrite <- Zle_Qle. lia. }
  assert (HD : Qabs (t - c) < (Z.pos p # 1) * (eps * f)).
  { rewrite <- (Qmult_div_r (Qabs (t - c)) (eps * f)) at 1 by lra.
    rewrite (Qmult_comm (eps * f)).
    apply Qmult_lt_compat_r; assumption. }
  pose proof (smoothed_distance_bound n c) as Hb. fold m in Hb.
  assert (Hmf : (Z.pos p # 1) * (eps * f) <= m * (eps * f))
    by (apply Qmult_le_compat_r; lra).
  assert (Hpos : 0 < 1 + m * f).
  { assert (0 <= m * f); [ apply Qmult_le_0_compat | ]; try lra.
    unfold m. change 0 with (inject_Z 0). rewrite <- Zle_Qle. lia. }
  apply (Qmult_lt_r _ _ (1 + m * f) Hpos).
  eapply Qle_lt_trans; [ exact Hb | ].
  setoid_replace (eps * (1 + m * f)) with (eps + m * (eps * f)) by ring.
  lra.
Qed.
End Step.

Lemma smoothed_compat (n : nat) : forall c c' t t' f f' : Q,
  c == c' -> t == t' -> f == f' -> smoothed n c t f == smoothed n c' t' f'.
Proof.
  induction n as [|n IH]; intros c c' t t' f f' Hc Ht Hf; cbn [smoothed].
  - exact Hc.
  - apply IH; try assumption. rewrite Hc, Ht, Hf. reflexivity.
Qed.

Lemma smoothedReduced_correct (n : nat) : forall c t f : Q,
  smoothedReduced n c t f == smoothed n c t f.
Proof.
  induction n as [|n IH]; intros c t f; cbn [smoothed smoothedReduced].
  - reflexivity.
  - rewrite IH. apply smoothed_compat; try reflexivity. apply Qred_correct.
Qed.

(** C5. With a factor in [(0,1]], a target in [[-1,1]] on both axes and a
    smoothed position that starts in [[-1,1]] on both axes, the smoothed
    position is in [[-1,1]] on both axes after any number of frames. *)
Theorem smoothing_bounded (s : State) (n : nat) :
  0 < smoothingAmount s <= 1 ->
  -1 <= targetX s <= 1 -> -1 <= targetY s <= 1 ->
  -1 <= currentX s <= 1 -> -1 <= currentY s <= 1 ->
  -1 <= currentX (frames n s) <= 1 /\ -1 <= currentY (frames n s) <= 1.
Proof.
  intros Hf Htx Hty Hcx Hcy.
  pose proof (frames_current X n s) as Hx. pose proof (frames_current Y n s) as Hy.
  cbn [current target] in Hx, Hy. rewrite Hx, Hy.
  split; apply smoothed_between; assumption.
Qed.

Lemma smoothing_bounded_witness :
  -1 <= currentX (frames 7 faceAtEdge) <= 1 /\
  -1 <= currentY (frames 7 faceAtEdge) <= 1.
Proof.
  apply (smoothing_bounded faceAtEdge 7); qeval.
Defined.

(** C6. With the target held at 1, the position started at 0 and the factor
    0.15, the position is above 0.95 after 20 frames. For every factor in
    [(0,1]] and every held target the position moves towards the target
    frame by frame and never passes it, its distance to the target never
    grows, and the distance ends up below any positive bound. *)
Theorem smoothing_converges (s : State) (a : Axis) :
  0 < smoothingAmount s <= 1 ->
  (target a s == 1 -> current a s == 0 -> smoothingAmount s == 0.15 ->
   0.95 < current a (frames 20 s)) /\
  (current a s <= target a s -> forall n : nat,
   current a (frames n s) <= current a (frames (S n) s) <= target a s) /\
  (target a s <= current a s -> forall n : nat,
   target a s <= current a (frames (S n) s) <= current a (frames n s)) /\
  (forall n : nat,
   Qabs (target a s - current a (frames (S n) s))
   <= Qabs (target a s - current a (frames n s))) /\
  (forall eps : Q, 0 < eps ->
   exists N : nat, forall n : nat, (N <= n)%nat ->
     Qabs (target a s - current a (frames n s)) < eps).
Proof.
  intro Hf. repeat split.
  - intros Ht Hc Hs. rewrite frames_current.
    rewrite (smoothed_compat 20 _ 0 _ 1 _ 0.15 Hc Ht Hs).
    rewrite <- smoothedReduced_correct.
    vm_compute. reflexivity.
  - rewrite !frames_current. apply smoothed_rises; assumption.
  - rewrite !frames_current. apply smoothed_rises; assumption.
  - rewrite !frames_current. apply smoothed_falls; assumption.
  - rewrite !frames_current. apply smoothed_falls; assumption.
  - intro n. rewrite !frames_current. apply smoothed_distance_step; assumption.
  - intros eps Heps.
    destruct (smoothed_converges (target a s) (smoothingAmount s) Hf
                (current a s) eps Heps) as [N HN].
    exists N. intros n Hn. rewrite frames_current. apply HN; exact Hn.
Qed.

Lemma smoothing_converges_witness :
  0.95 < current X (frames 20 faceAtEdge) /\
  current X (frames 4 faceAtEdge) <= current X (frames 5 faceAtEdge)
    <= target X faceAtEdge /\
  exists N : nat, forall n : nat, (N <= n)%nat ->
    Qabs (target X faceAtEdge - current X (frames n faceAtEdge)) < 0.001.
Proof.
  assert (Hf : 0 < smoothingAmount faceAtEdge <= 1) by qeval.
  assert (Ht : target X faceAtEdge == 1) by qeval.
  assert (Hc : current X faceAtEdge == 0) by qeval.
  assert (Hs : smoothingAmount faceAtEdge == 0.15) by qeval.
  assert (Hle : current X faceAtEdge <= target X faceAtEdge) by qeval.
  assert (Heps : 0 < 0.001) by qeval.
  destruct (smoothing_converges faceAtEdge X Hf) as (H20 & Hup & _ & _ & Hlim).
  exact (conj (H20 Ht Hc Hs) (conj (Hup Hle 4%nat) (Hlim 0.001 Heps))).
Defined.

(** ** Detections *)

(** C8. A callback with at least one detection sets the target from the
    centre of the first one, [(xCenter - 0.5) * 2] and [(yCenter - 0.5) * 2],
    and a centre in the unit square gives a target in [[-1,1]] on both axes. *)
Theorem target_from_first_detection
    (results : Results) (first : Detection) (others : list Detection)
    (s : State) :
  detections results = first :: others ->
  let bbox := boundingBox first in
  let s' := onFaceResults results s in
  targetX s' = (xCenter bbox - 0.5) * 2 /\
  targetY s' = (yCenter bbox - 0.5) * 2 /\
  (0 <= xCenter bbox <= 1 -> 0 <= yCenter bbox <= 1 ->
   -1 <= targetX s' <= 1 /\ -1 <= targetY s' <= 1).
Proof.
  intros Hd bbox s'. unfold s', onFaceResults. rewrite Hd. cbn.
  fold bbox. repeat split; try reflexivity.
  all: change (1 # 2) with 0.5 in *; lra.
Qed.

Lemma target_from_first_detection_witness :
  targetX faceAtEdge = (1 - 0.5) * 2 /\
  targetY faceAtEdge = (0.5 - 0.5) * 2 /\
  -1 <= targetX faceAtEdge <= 1 /\ -1 <= targetY faceAtEdge <= 1.
Proof.
  destruct (target_from_first_detection
              {| detections := [ edgeFace ] |} edgeFace []
              (initThreeJS (16 # 9) gridScript) eq_refl)
    as (Hx & Hy & Hin).
  split; [ exact Hx | split; [ exact Hy | ] ].
  apply Hin; qeval.
Defined.

Lemma handle_noFace_target (e : Event) (s : State) :
  noFace e = true ->
  targetX (handle e s) = targetX s /\ targetY (handle e s) = targetY s.
Proof.
  destruct e as [results| |newVal|newVal]; cbn [noFace handle].
  - unfold onFaceResults. destruct (detections results).
    + intros _. split; reflexivity.
    + discriminate.
  - intros _. destruct (animate_vars s) as (Hx & Hy & _). split; assumption.
  - intros _. split; reflexivity.
  - intros _. split; reflexivity.
Qed.

Lemma run_noFace_target (events : list Event) : forall s : State,
  forallb noFace events = true ->
  targetX (run events s) = targetX s /\ targetY (run events s) = targetY s.
Proof.
  induction events as [|e events IH]; intros s Hall.
  - split; reflexivity.
  - cbn [forallb] in Hall. apply andb_prop in Hall. destruct Hall as [He Hall].
    change (run (e :: events) s) with (run events (handle e s)).
    destruct (IH (handle e s) Hall) as [Hx Hy].
    destruct (handle_noFace_target e s He) as [Hx' Hy'].
    split; congruence.
Qed.

(** C9. A callback without detections changes nothing, so the target and the
    smoothed position stay what they were; and as long as no callback has
    carried a detection, whatever frames were drawn, the target is the
    [(0, 0)] of its declaration. *)
Theorem missing_detection_keeps_target :
  (forall (results : Results) (s : State),
     detections results = [] -> onFaceResults results s = s) /\
  (forall strength : Q,
     targetX (initialState strength) = 0 /\ targetY (initialState strength) = 0) /\
  (forall (strength windowAspect : Q) (events : list Event),
     forallb noFace events = true ->
     let s := run events (initThreeJS windowAspect (initialState strength)) in
     targetX s = 0 /\ targetY s = 0).
Proof.
  split; [ | split ].
  - intros results s Hd. unfold onFaceResults. rewrite Hd. reflexivity.
  - intro strength. split; reflexivity.
  - intros strength windowAspect events Hall s.
    destruct (run_noFace_target events
                (initThreeJS windowAspect (initialState strength)) Hall)
      as [Hx Hy].
    unfold s. rewrite Hx, Hy. split; reflexivity.
Qed.

Lemma missing_detection_keeps_target_witness :
  onFaceResults {| detections := [] |} trackedState = trackedState /\
  (let s := run [AnimationFrame; FaceResults {| detections := [] |};
                 AnimationFrame]
                (initThreeJS (16 # 9) (initialState 0.40)) in
   targetX s = 0 /\ targetY s = 0).
Proof.
  destruct missing_detection_keeps_target as (Hnone & _ & Hrun).
  split.
  - apply Hnone. reflexivity.
  - apply Hrun. reflexivity.
Defined.

(** ** The running script *)

Lemma onFaceResults_vars (results : Results) (s : State) :
  let s' := onFaceResults results s in
  currentX s' = currentX s /\ currentY s' = currentY s /\
  smoothingAmount s' = smoothingAmount s /\
  parallaxStrength s' = parallaxStrength s /\
  boxGroup s' = boxGroup s /\ threeCamera s' = threeCamera s.
Proof.
  cbv zeta. unfold onFaceResults.
  destruct (detections results); cbn; repeat split; reflexivity.
Qed.

Lemma clampControl_range (min max newVal : Q) :
  min <= max -> min <= clampControl min max newVal <= max.
Proof.
  intro Hle. unfold clampControl. split.
  - apply Q.le_max_l.
  - apply Q.max_lub; [ exact Hle | apply Q.le_min_l ].
Qed.

Lemma handle_settings (e : Event) (s : State) :
  settingsInRange s -> settingsInRange (handle e s).
Proof.
  intros [Hf Hp]. destruct e as [results| |newVal|newVal]; cbn [handle].
  - destruct (onFaceResults_vars results s) as (_ & _ & Ef & Ep & _).
    unfold settingsInRange. rewrite Ef, Ep. split; assumption.
  - destruct (animate_vars s) as (_ & _ & _ & _ & Ef & Ep & _).
    unfold settingsInRange. rewrite Ef, Ep. split; assumption.
  - split; [ exact Hf | ]. apply clampControl_range. lra.
  - split; [ | exact Hp ]. apply clampControl_range. lra.
Qed.

Lemma initThreeJS_ready (windowAspect : Q) (s : State) :
  ready (initThreeJS windowAspect s).
Proof. split; [ discriminate | reflexivity ]. Qed.

Lemma handle_ready (e : Event) (s : State) : ready s -> ready (handle e s).
Proof.
  intros [Hcam Hbox]. destruct e as [results| |newVal|newVal]; cbn [handle].
  - destruct (onFaceResults_vars results s) as (_ & _ & _ & _ & Hb & Hc).
    split; [ rewrite Hc | rewrite Hb ]; assumption.
  - destruct (animate_vars s) as (_ & _ & _ & _ & _ & _ & Hb).
    split; [ | rewrite Hb; assumption ].
    unfold animate. intro Hnone.
    apply updateOffAxisProjection_camera_kept in Hnone. exact (Hcam Hnone).
  - split; assumption.
  - split; assumption.
Qed.

Lemma handle_inRange (e : Event) (s : State) :
  0 < smoothingAmount s <= 1 -> inFrame e -> inRange s -> inRange (handle e s).
Proof.
  intros Hf He [[Htx Hty] [Hcx Hcy]].
  destruct e as [results| |newVal|newVal]; cbn [handle].
  - unfold onFaceResults. cbn [inFrame] in He.
    destruct (detections results) as [|detection others].
    + exact (conj (conj Htx Hty) (conj Hcx Hcy)).
    + destruct He as [Hx Hy]. unfold inRange; cbn.
      change (1 # 2) with 0.5 in *. repeat split; lra.
  - destruct (animate_vars s) as (Ex & Ey & Ecx & Ecy & _).
    unfold inRange. rewrite Ex, Ey, Ecx, Ecy.
    split; [ split; assumption | ].
    split; apply (step_between _ _ Hf (-1) 1); assumption.
  - exact (conj (conj Htx Hty) (conj Hcx Hcy)).
  - exact (conj (conj Htx Hty) (conj Hcx Hcy)).
Qed.

(** X3. Once [initThreeJS] has run, every interleaving of frames, clicks on the
    controls and detection callbacks whose detections lie inside the camera
    frame leaves the camera and the box in place, the settings inside the
    ranges of their controls, and both the target and the smoothed position
    inside [[-1,1]]. *)
Theorem running_script_invariant (events : list Event) : forall s : State,
  ready s -> settingsInRange s -> inRange s ->
  Forall inFrame events ->
  ready (run events s) /\ settingsInRange (run events s) /\
  inRange (run events s).
Proof.
  induction events as [|e events IH]; intros s Hready Hset Hrange Hall.
  - repeat split; solve [ apply Hready | apply Hset | apply Hrange ].
  - inversion Hall as [|e' events' He Hrest]; subst.
    change (run (e :: events) s) with (run events (handle e s)).
    apply IH.
    + apply handle_ready; assumption.
    + apply handle_settings; assumption.
    + apply handle_inRange; try assumption. destruct Hset as [Hf _]. lra.
    + assumption.
Qed.

(** Both versions of the script start inside the invariant. *)
Lemma started_script (windowAspect : Q) :
  let started s := ready s /\ settingsInRange s /\ inRange s in
  started (initThreeJS windowAspect gridScript) /\
  started (initThreeJS windowAspect modelScript).
Proof.
  cbv zeta. split.
  all: split; [ apply initThreeJS_ready | ].
  all: split; [ unfold settingsInRange; cbn; lra | ].
  all: unfold inRange; cbn; lra.
Qed.

(** ** More on the projection *)

(** X1. The window stays locked to the screen: from the eye position that
    [updateOffAxisProjection] gives the camera, the rays through the four
    edges of the near-plane window meet the screen plane, [eyeDistance] away,
    exactly at [-halfWidth], [halfWidth], [-halfHeight] and [halfHeight],
    wherever the head is and whatever the strength. *)
Theorem window_locked_to_screen (s : State) (cam : Camera) (ud : UserData) :
  threeCamera s = Some cam -> boxGroup s = Some ud ->
  exists left right bottom top eyeX eyeY,
    threeCamera (updateOffAxisProjection s) =
      Some {| projectionMatrix :=
                makePerspective left right bottom top nearClip farClip;
              position := {| vx := eyeX; vy := eyeY; vz := eyeDistance |};
              rotation := {| vx := 0; vy := 0; vz := 0 |} |} /\
    eyeX + left * (eyeDistance / nearClip) == - halfWidth ud /\
    eyeX + right * (eyeDistance / nearClip) == halfWidth ud /\
    eyeY + bottom * (eyeDistance / nearClip) == - halfHeight ud /\
    eyeY + top * (eyeDistance / nearClip) == halfHeight ud.
Proof.
  intros Hcam Hbox. do 6 eexists. split.
  - apply (updateOffAxisProjection_camera s cam ud Hcam Hbox).
  - rewrite nearOverDist_value.
    change (eyeDistance / nearClip) with (50 # 1).
    repeat split; ring.
Qed.

Lemma window_locked_to_screen_witness :
  exists left right bottom top eyeX eyeY,
    threeCamera (updateOffAxisProjection trackedState) =
      Some {| projectionMatrix :=
                makePerspective left right bottom top nearClip farClip;
              position := {| vx := eyeX; vy := eyeY; vz := eyeDistance |};
              rotation := {| vx := 0; vy := 0; vz := 0 |} |} /\
    eyeX + left * (eyeDistance / nearClip) == - (7680 # 2160) /\
    eyeX + right * (eyeDistance / nearClip) == 7680 # 2160 /\
    eyeY + bottom * (eyeDistance / nearClip) == - (4 # 2) /\
    eyeY + top * (eyeDistance / nearClip) == 4 # 2.
Proof.
  refine (window_locked_to_screen trackedState _
            {| halfWidth := 7680 # 2160; halfHeight := 4 # 2 |} _ _); qeval.
Defined.

(** X2. The camera pose that [updateOffAxisProjection] writes depends on the
    smoothed position, the strength and the box only: whatever matrix,
    position or rotation the camera had before is overwritten. In particular
    a second call in a row changes nothing. *)
Theorem projection_overwrites_pose
    (s1 s2 : State) (cam1 cam2 : Camera) (ud : UserData) :
  threeCamera s1 = Some cam1 -> threeCamera s2 = Some cam2 ->
  boxGroup s1 = Some ud -> boxGroup s2 = Some ud ->
  currentX s1 = currentX s2 -> currentY s1 = currentY s2 ->
  parallaxStrength s1 = parallaxStrength s2 ->
  threeCamera (updateOffAxisProjection s1) =
  threeCamera (updateOffAxisProjection s2) /\
  updateOffAxisProjection (updateOffAxisProjection s1) =
  updateOffAxisProjection s1.
Proof.
  intros H1 H2 Hb1 Hb2 Hx Hy Hp. split.
  - rewrite (updateOffAxisProjection_camera s1 cam1 ud H1 Hb1).
    rewrite (updateOffAxisProjection_camera s2 cam2 ud H2 Hb2).
    rewrite Hx, Hy, Hp. reflexivity.
  - unfold updateOffAxisProjection. rewrite H1, Hb1. reflexivity.
Qed.

Lemma projection_overwrites_pose_witness :
  threeCamera (updateOffAxisProjection (withCurrent 0.25 0 trackedState)) =
  threeCamera (updateOffAxisProjection
                 (withCurrent 0.25 0 (initThreeJS (4 # 3) gridScript))) /\
  updateOffAxisProjection
    (updateOffAxisProjection (withCurrent 0.25 0 trackedState)) =
  updateOffAxisProjection (withCurrent 0.25 0 trackedState).
Proof.
  refine (projection_overwrites_pose
            (withCurrent 0.25 0 trackedState)
            (withCurrent 0.25 0 (initThreeJS (4 # 3) gridScript)) _ _
            {| halfWidth := 7680 # 2160; halfHeight := 4 # 2 |}
            _ _ _ _ _ _ _); qeval.
Defined.

(** For X3, [running_script_invariant] above, at a sample session. *)
Lemma running_script_invariant_witness :
  ready (run sampleSession (initThreeJS (16 # 9) modelScript)) /\
  settingsInRange (run sampleSession (initThreeJS (16 # 9) modelScript)) /\
  inRange (run sampleSession (initThreeJS (16 # 9) modelScript)).
Proof.
  apply running_script_invariant.
  - split; [ discriminate | reflexivity ].
  - qeval.
  - qeval.
  - unfold sampleSession. repeat constructor; qeval.
Defined.
